(** * Dense matrices of the math library (libraries/math/include/Matrix.h)

    A shallow embedding of the layout-specialised matrix base classes, the
    constant and mutable matrix references and the owning [Matrix], together
    with the properties of the index arithmetic, of element access, of block
    extraction and of the constructors.

    Conventions.
    - [size_t] is modelled as [Z] restricted to [0, 2^64); every [size_t]
      operation of the source reduces its result modulo [2^64].
    - A pointer into a [std::vector] buffer is the element offset from the
      start of the buffer ([None] is [nullptr]).
    - Undefined behaviour (an access outside the buffer, dereferencing
      [list.begin()] of an empty list) is the result [None]. *)

From Stdlib Require Import ZArith Lia.
From stdpp Require Import base option list.

Local Open Scope Z_scope.

(** ** The [size_t] type *)

Module SizeT.

Definition bits : Z := 64.
Definition modulus : Z := 2 ^ bits.
Definition max : Z := modulus - 1.

(** Reduction of an integer to the value a [size_t] holds. *)
Definition wrap (z : Z) : Z := z mod modulus.

Definition add (a b : Z) : Z := wrap (a + b).
Definition mul (a b : Z) : Z := wrap (a * b).

(** The values of the type. *)
Definition in_range (z : Z) : Prop := 0 <= z <= max.

End SizeT.

(** ** Layouts and the layout-specialised base class *)

(** [enum class MatrixLayout { columnMajor, rowMajor }]. *)
Inductive MatrixLayout : Set := columnMajor | rowMajor.

(** [RectangularMatrixBase] extended by [MatrixBase<ElementType, Layout>].
    Each of the two specialisations stores one stride next to the inherited
    members: [_columnIncrement] in the column-major class, [_rowIncrement] in
    the row-major class.  The field [_increment] is that member; the layout is
    a parameter of the type, as in the source. *)
Record MatrixBase (Layout : MatrixLayout) : Set := mkMatrixBase {
  _pData : option nat;
  _numRows : Z;
  _numColumns : Z;
  _increment : Z
}.

Arguments mkMatrixBase {Layout} _ _ _ _.
Arguments _pData {Layout} _.
Arguments _numRows {Layout} _.
Arguments _numColumns {Layout} _.
Arguments _increment {Layout} _.

Definition NumRows {Layout} (m : MatrixBase Layout) : Z := _numRows m.

Definition NumColumns {Layout} (m : MatrixBase Layout) : Z := _numColumns m.

(** [MatrixBase(size_t numRows, size_t numColumns)]: the data pointer is
    [nullptr], the stride is [numRows] for the column-major class and
    [numColumns] for the row-major class.  (The constructor inherited from
    [RectangularMatrixBase] does not initialise the stride; no constructor of
    [Matrix] uses it.) *)
Definition MatrixBase_ctor (Layout : MatrixLayout) (numRows numColumns : Z)
  : MatrixBase Layout :=
  mkMatrixBase None numRows numColumns
    (match Layout with
     | columnMajor => numRows
     | rowMajor => numColumns
     end).

(** [GetIndex]: [rowIndex + columnIndex * _columnIncrement], respectively
    [rowIndex * _rowIncrement + columnIndex], in [size_t] arithmetic. *)
Definition GetIndex {Layout} (m : MatrixBase Layout) (rowIndex columnIndex : Z) : Z :=
  match Layout with
  | columnMajor => SizeT.add rowIndex (SizeT.mul columnIndex (_increment m))
  | rowMajor => SizeT.add (SizeT.mul rowIndex (_increment m)) columnIndex
  end.

Definition GetLayout {Layout} (m : MatrixBase Layout) : MatrixLayout := Layout.

Definition GetRowIncrement {Layout} (m : MatrixBase Layout) : Z :=
  match Layout with
  | columnMajor => 1
  | rowMajor => _increment m
  end.

Definition GetColumnIncrement {Layout} (m : MatrixBase Layout) : Z :=
  match Layout with
  | columnMajor => _increment m
  | rowMajor => 1
  end.

(** The index pairs inside the declared extents. *)
Definition valid_index {Layout} (m : MatrixBase Layout) (r c : Z) : Prop :=
  0 <= r < NumRows m /\ 0 <= c < NumColumns m.

(** The offset of an index pair computed in unbounded integers. *)
Definition exact_offset {Layout} (m : MatrixBase Layout) (r c : Z) : Z :=
  r * GetRowIncrement m + c * GetColumnIncrement m.

(** Injectivity of the index mapping on the valid index pairs. *)
Definition injective_on_valid {Layout} (m : MatrixBase Layout) : Prop :=
  forall r1 c1 r2 c2,
    valid_index m r1 c1 -> valid_index m r2 c2 ->
    GetIndex m r1 c1 = GetIndex m r2 c2 -> r1 = r2 /\ c1 = c2.

(** ** Buffers and pointers *)

(** [p + i] on a pointer into a buffer; [nullptr] stays [nullptr]. *)
Definition ptr_add (p : option nat) (i : Z) : option nat :=
  (fun base => (base + Z.to_nat i)%nat) <$> p.

(** The lvalue [p[i]]: the position in the buffer that [p[i]] designates.
    It exists only when [p] is not [nullptr] and the position is inside the
    buffer; everywhere else the access is undefined. *)
Definition subscript {ElementType} (buf : list ElementType) (p : option nat) (i : Z)
  : option nat :=
  a ← ptr_add p i;
  if (a <? length buf)%nat then Some a else None.

(** Value initialisation [ElementType()], the value every element of
    [std::vector<ElementType>(n)] starts with. *)
Class ValueInit (ElementType : Type) : Type := value_init : ElementType.

#[export] Instance Z_value_init : ValueInit Z := 0.

(** The exceptions the sizing constructor of [std::vector] throws. *)
Inductive exception : Set := length_error | bad_alloc.

(** The outcome of a constructor: the object it builds, or the exception it
    throws (no object is built then). *)
Inductive outcome (A : Type) : Type :=
| Returns (a : A)
| Throws (e : exception).

Arguments Returns {A} _.
Arguments Throws {A} _.

(** What [std::vector<ElementType>(n)] depends on besides [n]: [max_size()],
    the largest element count the vector accepts, and whether the allocator
    supplies the storage of [n] elements. *)
Class VectorAllocation (ElementType : Type) : Type := {
  max_size : Z;
  allocates : Z -> bool
}.

(** The platform of the examples: elements of 4 bytes on a 64-bit target,
    where [max_size()] is [PTRDIFF_MAX / 4], and an allocator that supplies
    up to [2^28] elements. *)
#[export] Instance Z_vector_allocation : VectorAllocation Z := {|
  max_size := 2305843009213693951;
  allocates := fun n => n <=? 268435456
|}.

(** [std::vector<ElementType>(n)], the sizing constructor: it throws
    [std::length_error] when [n] exceeds [max_size()], throws
    [std::bad_alloc] when the allocator does not supply the storage (a vector
    of no elements needs none), and otherwise holds [n] value-initialised
    elements. *)
Definition vector_sized {ElementType} `{ValueInit ElementType}
    `{VectorAllocation ElementType} (n : Z) : outcome (list ElementType) :=
  if max_size <? n then Throws length_error
  else if (0 <? n) && negb (allocates n) then Throws bad_alloc
  else Returns (replicate (Z.to_nat n) value_init).

(** ** The views *)

(** A view together with the buffer it points into: the state an accessor
    of a mutable view runs in. *)
Record ViewState (ElementType : Type) (Layout : MatrixLayout) : Type := mkViewState {
  view : MatrixBase Layout;
  buffer : list ElementType
}.

Arguments mkViewState {ElementType Layout} _ _.
Arguments view {ElementType Layout} _.
Arguments buffer {ElementType Layout} _.

(** Modelled from the spec: Vector.h is not among the sources.  The companion
    vector view is constructible from a base pointer, a length and a stride
    and exposes its element count and strided element access. *)
Record ConstVectorReference : Set := mkConstVectorReference {
  vector_pData : option nat;
  vector_size : Z;
  vector_increment : Z
}.

(** Modelled from the spec: the default-constructed vector view, which the
    spec describes as the empty/default view (no data, no elements). *)
Definition ConstVectorReference_default : ConstVectorReference :=
  mkConstVectorReference None 0 1.

(** Modelled from the spec: strided element access of the vector view,
    element [i] is [pData[i * increment]]. *)
Definition ConstVectorReference_at {ElementType} (buf : list ElementType)
    (v : ConstVectorReference) (i : Z) : option ElementType :=
  a ← subscript buf (vector_pData v) (SizeT.mul i (vector_increment v));
  buf !! a.

Module ConstMatrixReference.

(** Modelled from the spec: the constructor [(pData, numRows, numColumns,
    increment)] that both [GetBlock] functions call is not declared in
    Matrix.h.  It stores its four arguments; the last one is the stride of
    the view, which a block takes over from its parent. *)
Definition ctor {Layout} (pData : option nat) (numRows numColumns increment : Z)
  : MatrixBase Layout :=
  mkMatrixBase pData numRows numColumns increment.

(** [ElementType operator()(rowIndex, columnIndex) const]. *)
Definition operator_call {ElementType Layout} (buf : list ElementType)
    (m : MatrixBase Layout) (rowIndex columnIndex : Z) : option ElementType :=
  a ← subscript buf (_pData m) (GetIndex m rowIndex columnIndex);
  buf !! a.

(** [GetBlock(firstRow, firstColumn, numRows, numColumns) const].  The
    member the source names [_increment] is the stride stored by the
    layout's base class. *)
Definition GetBlock {Layout} (m : MatrixBase Layout)
    (firstRow firstColumn numRows numColumns : Z) : MatrixBase Layout :=
  ctor (ptr_add (_pData m) (GetIndex m firstRow firstColumn))
       numRows numColumns (_increment m).

(** [GetColumn(index) const] returns a default-constructed vector view. *)
Definition GetColumn {Layout} (m : MatrixBase Layout) (index : Z)
  : ConstVectorReference :=
  ConstVectorReference_default.

(** [operator==]: the dimensions are compared, then [true] is returned. *)
Definition operator_eq {Layout} (m other : MatrixBase Layout) : bool :=
  if negb (NumRows m =? NumRows other) || negb (NumColumns m =? NumColumns other)
  then false
  else true.

End ConstMatrixReference.

Module MatrixReference.

(** [ElementType& operator()(rowIndex, columnIndex)]: the designated
    element of the buffer, as an lvalue. *)
Definition operator_call {ElementType Layout} (buf : list ElementType)
    (m : MatrixBase Layout) (rowIndex columnIndex : Z) : option nat :=
  subscript buf (_pData m) (GetIndex m rowIndex columnIndex).

(** The statement [m(rowIndex, columnIndex) = value]. *)
Definition assign {ElementType Layout} (s : ViewState ElementType Layout)
    (rowIndex columnIndex : Z) (value : ElementType)
  : option (ViewState ElementType Layout) :=
  a ← operator_call (buffer s) (view s) rowIndex columnIndex;
  Some (mkViewState (view s) (<[a := value]> (buffer s))).

(** [GetBlock(firstRow, firstColumn, numRows, numColumns)], the mutable
    variant; its body is that of the constant one. *)
Definition GetBlock {Layout} (m : MatrixBase Layout)
    (firstRow firstColumn numRows numColumns : Z) : MatrixBase Layout :=
  ConstMatrixReference.ctor (ptr_add (_pData m) (GetIndex m firstRow firstColumn))
       numRows numColumns (_increment m).

End MatrixReference.

(** ** The owning matrix *)

Module Matrix.

(** [list.size()] of a [std::initializer_list]. *)
Definition size {A} (l : list A) : Z := SizeT.wrap (Z.of_nat (length l)).

(** [_pData = _data.data()] on a freshly built base. *)
Definition attach {Layout} (m : MatrixBase Layout) : MatrixBase Layout :=
  mkMatrixBase (Some 0%nat) (_numRows m) (_numColumns m) (_increment m).

(** The matrix [Matrix(size_t numRows, size_t numColumns)] builds once its
    vector is built: the base is built from the dimensions, [_data] holds
    [numRows * numColumns] value-initialised elements, and [_pData] points to
    its first element.  Whether the vector is built is [construct], below. *)
Definition ctor {ElementType} `{ValueInit ElementType} (Layout : MatrixLayout)
    (numRows numColumns : Z) : ViewState ElementType Layout :=
  mkViewState (attach (MatrixBase_ctor Layout numRows numColumns))
              (replicate (Z.to_nat (SizeT.mul numRows numColumns)) value_init).

(** [Matrix(size_t numRows, size_t numColumns)] with its outcome: the base
    is built from the dimensions, then [_data(numRows * numColumns)] is the
    sizing constructor of the vector, whose exception leaves the constructor
    and no matrix is built; otherwise the body sets
    [_pData = _data.data()]. *)
Definition construct {ElementType} `{ValueInit ElementType}
    `{VectorAllocation ElementType} (Layout : MatrixLayout)
    (numRows numColumns : Z) : outcome (ViewState ElementType Layout) :=
  let base := MatrixBase_ctor Layout numRows numColumns in
  match vector_sized (SizeT.mul numRows numColumns) with
  | Returns _data => Returns (mkViewState (attach base) _data)
  | Throws e => Throws e
  end.

(** The inner loop of the literal constructor: the element the iterator
    points to is assigned to position [(i, j)] of this matrix, then [++j],
    for every element of one row. *)
Fixpoint fill_row {ElementType Layout} (s : ViewState ElementType Layout)
    (i j : Z) (row : list ElementType) : option (ViewState ElementType Layout) :=
  match row with
  | [] => Some s
  | x :: rest =>
      s' ← MatrixReference.assign s i j x;
      fill_row s' i (SizeT.add j 1) rest
  end.

(** The outer loop: one row after the other, [++i] after each. *)
Fixpoint fill_rows {ElementType Layout} (s : ViewState ElementType Layout)
    (i : Z) (rows : list (list ElementType)) : option (ViewState ElementType Layout) :=
  match rows with
  | [] => Some s
  | row :: rest =>
      s' ← fill_row s i 0 row;
      fill_rows s' (SizeT.add i 1) rest
  end.

(** [Matrix(std::initializer_list<std::initializer_list<ElementType>> list)].
    The dimensions are [list.size()] and [list.begin()->size()];
    [list.begin()] of an empty list must not be dereferenced.  No statement
    of the constructor compares the length of a row with [NumColumns()] and
    none throws. *)
Definition ctor_list {ElementType} `{ValueInit ElementType} (Layout : MatrixLayout)
    (list : list (list ElementType)) : option (ViewState ElementType Layout) :=
  match list with
  | [] => None
  | first :: _ =>
      fill_rows (ctor Layout (size list) (size first)) 0 list
  end.

End Matrix.

(** ** Notions used by the statements *)

(** A view is valid for a buffer when its stride is a [size_t] value, the
    buffer has a [size_t] length, and every index pair inside the declared
    extents designates, in unbounded arithmetic, a position inside the
    buffer. *)
Definition valid_view {ElementType Layout} (buf : list ElementType)
    (m : MatrixBase Layout) : Prop :=
  SizeT.in_range (_increment m) /\
  Z.of_nat (length buf) <= SizeT.max /\
  forall r c, valid_index m r c ->
    exists p, _pData m = Some p /\
              Z.of_nat p + exact_offset m r c < Z.of_nat (length buf).

(** The equality of two views as the specification words it: the dimensions
    match and every corresponding element compares equal. *)
Definition elementwise_equal {ElementType Layout}
    (bufA : list ElementType) (a : MatrixBase Layout)
    (bufB : list ElementType) (b : MatrixBase Layout) : Prop :=
  NumRows a = NumRows b /\ NumColumns a = NumColumns b /\
  forall r c, valid_index a r c ->
    ConstMatrixReference.operator_call bufA a r c =
    ConstMatrixReference.operator_call bufB b r c.




(** ** Literals of the scenarios *)

Definition literal_2x3 : list (list Z) := [[1; 2; 3]; [4; 5; 6]].

Definition literal_ragged : list (list Z) := [[1; 2]; [3]].

(** * Properties *)

(** ** Arithmetic of [size_t] *)

Lemma modulus_pos : 0 < SizeT.modulus.
Proof. reflexivity. Qed.

Lemma modulus_eq : SizeT.modulus = 18446744073709551616.
Proof. reflexivity. Qed.

Lemma max_eq : SizeT.max = 18446744073709551615.
Proof. reflexivity. Qed.

Lemma max_modulus : SizeT.max = SizeT.modulus - 1.
Proof. reflexivity. Qed.

Lemma wrap_range z : 0 <= SizeT.wrap z < SizeT.modulus.
Proof. unfold SizeT.wrap. apply Z.mod_pos_bound, modulus_pos. Qed.

Lemma wrap_small z : 0 <= z < SizeT.modulus -> SizeT.wrap z = z.
Proof. intros Hz. unfold SizeT.wrap. now apply Z.mod_small. Qed.

Lemma add_wrap_r a b : SizeT.add a (SizeT.wrap b) = SizeT.wrap (a + b).
Proof. unfold SizeT.add, SizeT.wrap. now rewrite Zplus_mod_idemp_r. Qed.

Lemma add_wrap_l a b : SizeT.add (SizeT.wrap a) b = SizeT.wrap (a + b).
Proof. unfold SizeT.add, SizeT.wrap. now rewrite Zplus_mod_idemp_l. Qed.

Lemma add_small a b : 0 <= a + b < SizeT.modulus -> SizeT.add a b = a + b.
Proof. apply wrap_small. Qed.

Lemma mul_small a b : 0 <= a * b < SizeT.modulus -> SizeT.mul a b = a * b.
Proof. apply wrap_small. Qed.

(** ** The index mapping *)

(** [GetIndex] is the unbounded offset reduced modulo [2^64]. *)
Lemma GetIndex_wrap {Layout} (m : MatrixBase Layout) r c :
  GetIndex m r c = SizeT.wrap (exact_offset m r c).
Proof.
  destruct Layout; unfold GetIndex, exact_offset, GetRowIncrement,
    GetColumnIncrement, SizeT.mul.
  - rewrite add_wrap_r. f_equal. lia.
  - rewrite add_wrap_l. f_equal. lia.
Qed.

Lemma GetIndex_range {Layout} (m : MatrixBase Layout) r c :
  0 <= GetIndex m r c < SizeT.modulus.
Proof. rewrite GetIndex_wrap. apply wrap_range. Qed.

(** Without overflow [GetIndex] is the unbounded offset. *)
Lemma GetIndex_exact {Layout} (m : MatrixBase Layout) r c :
  0 <= exact_offset m r c < SizeT.modulus ->
  GetIndex m r c = exact_offset m r c.
Proof. intros Hb. rewrite GetIndex_wrap. now apply wrap_small. Qed.

Lemma exact_offset_ctor Layout nr nc r c :
  exact_offset (MatrixBase_ctor Layout nr nc) r c =
  match Layout with
  | columnMajor => r + c * nr
  | rowMajor => r * nc + c
  end.
Proof. destruct Layout; unfold exact_offset; simpl; lia. Qed.

(** The offsets of the valid index pairs of a matrix built from its own
    dimensions enumerate [0, numRows * numColumns). *)
Lemma exact_offset_ctor_bound Layout nr nc r c :
  valid_index (MatrixBase_ctor Layout nr nc) r c ->
  0 <= exact_offset (MatrixBase_ctor Layout nr nc) r c < nr * nc.
Proof.
  unfold valid_index, NumRows, NumColumns. simpl. intros [Hr Hc].
  rewrite exact_offset_ctor. destruct Layout; nia.
Qed.

Lemma exact_offset_ctor_inj Layout nr nc r1 c1 r2 c2 :
  valid_index (MatrixBase_ctor Layout nr nc) r1 c1 ->
  valid_index (MatrixBase_ctor Layout nr nc) r2 c2 ->
  exact_offset (MatrixBase_ctor Layout nr nc) r1 c1 =
  exact_offset (MatrixBase_ctor Layout nr nc) r2 c2 ->
  r1 = r2 /\ c1 = c2.
Proof.
  unfold valid_index, NumRows, NumColumns. simpl. intros [Hr1 Hc1] [Hr2 Hc2].
  rewrite !exact_offset_ctor. destruct Layout; intros He.
  - assert (c1 = c2) by nia. subst. lia.
  - assert (r1 = r2) by nia. subst. lia.
Qed.

(** C1 (as amended): for a matrix built from the dimensions
    [(numRows, numColumns)] and all [size_t] values [r], [c], the index
    mapping is [r + c * numRows] (column-major), respectively
    [r * numColumns + c] (row-major), reduced modulo [2^64]; it is exactly
    that value whenever the value is a [size_t]. *)
Theorem GetIndex_of_dimensions (nr nc r c : Z) :
  SizeT.in_range nr -> SizeT.in_range nc ->
  SizeT.in_range r -> SizeT.in_range c ->
  GetIndex (MatrixBase_ctor columnMajor nr nc) r c = SizeT.wrap (r + c * nr) /\
  GetIndex (MatrixBase_ctor rowMajor nr nc) r c = SizeT.wrap (r * nc + c) /\
  (r + c * nr <= SizeT.max ->
   GetIndex (MatrixBase_ctor columnMajor nr nc) r c = r + c * nr) /\
  (r * nc + c <= SizeT.max ->
   GetIndex (MatrixBase_ctor rowMajor nr nc) r c = r * nc + c).
Proof.
  unfold SizeT.in_range. intros Hnr Hnc Hr Hc.
  rewrite !GetIndex_wrap, !exact_offset_ctor.
  repeat split; try reflexivity; intros Hfit; apply wrap_small;
    rewrite max_modulus in *; nia.
Qed.

Lemma GetIndex_of_dimensions_witness :
  GetIndex (MatrixBase_ctor columnMajor 2 3) 1 2 = 5 /\
  GetIndex (MatrixBase_ctor rowMajor 2 3) 1 2 = 5.
Proof.
  destruct (GetIndex_of_dimensions 2 3 1 2) as (_ & _ & Hc & Hr);
    try (unfold SizeT.in_range; rewrite max_eq; lia).
  split; [apply Hc | apply Hr]; rewrite max_eq; lia.
Defined.

(** C1, as stated, fails where the sum leaves the range of [size_t]: in the
    column-major 1x1 matrix, [GetIndex(SIZE_MAX, 1)] is [0]. *)
Lemma GetIndex_of_dimensions_overflow :
  SizeT.in_range SizeT.max /\ SizeT.in_range 1 /\
  GetIndex (MatrixBase_ctor columnMajor 1 1) SizeT.max 1 = 0 /\
  GetIndex (MatrixBase_ctor columnMajor 1 1) SizeT.max 1 <> SizeT.max + 1 * 1.
Proof. vm_compute. repeat split; discriminate. Qed.

(** For dimensions whose product does not exceed [2^64], no offset of a
    valid index pair overflows. *)
Lemma GetIndex_ctor_exact Layout nr nc r c :
  nr * nc <= SizeT.modulus ->
  valid_index (MatrixBase_ctor Layout nr nc) r c ->
  GetIndex (MatrixBase_ctor Layout nr nc) r c =
  exact_offset (MatrixBase_ctor Layout nr nc) r c.
Proof.
  intros Hfit Hv. apply GetIndex_exact.
  pose proof (exact_offset_ctor_bound _ _ _ _ _ Hv). lia.
Qed.

Lemma ctor_injective_on_valid Layout nr nc :
  nr * nc <= SizeT.modulus ->
  injective_on_valid (MatrixBase_ctor Layout nr nc).
Proof.
  intros Hfit r1 c1 r2 c2 H1 H2.
  rewrite !GetIndex_ctor_exact by assumption.
  now apply exact_offset_ctor_inj.
Qed.

(** C2 (as amended): when [numRows * numColumns] does not exceed [2^64], the
    index mapping of the matrix built from [(numRows, numColumns)] is
    injective on the valid index pairs and maps them into
    [0, numRows * numColumns). *)
Theorem GetIndex_injective_in_range Layout (nr nc : Z) :
  nr * nc <= SizeT.modulus ->
  injective_on_valid (MatrixBase_ctor Layout nr nc) /\
  forall r c, valid_index (MatrixBase_ctor Layout nr nc) r c ->
    0 <= GetIndex (MatrixBase_ctor Layout nr nc) r c < nr * nc.
Proof.
  intros Hfit. split.
  - now apply ctor_injective_on_valid.
  - intros r c Hv. rewrite GetIndex_ctor_exact by assumption.
    now apply exact_offset_ctor_bound.
Qed.

Lemma GetIndex_injective_in_range_witness :
  injective_on_valid (MatrixBase_ctor columnMajor 3 3) /\
  forall r c, valid_index (MatrixBase_ctor columnMajor 3 3) r c ->
    0 <= GetIndex (MatrixBase_ctor columnMajor 3 3) r c < 3 * 3.
Proof. apply (GetIndex_injective_in_range columnMajor 3 3). rewrite modulus_eq. lia. Defined.

(** C2, as stated, fails for dimensions whose product leaves the range of
    [size_t]: in the row-major matrix of shape [(2^33, 2^32)] the valid index
    pairs [(2^32, 0)] and [(0, 0)] have the same offset [0]. *)
Lemma GetIndex_not_injective_overflow :
  ~ injective_on_valid (MatrixBase_ctor rowMajor 8589934592 4294967296).
Proof.
  intros Hinj.
  destruct (Hinj 4294967296 0 0 0) as [Habs _].
  - unfold valid_index, NumRows, NumColumns; simpl; lia.
  - unfold valid_index, NumRows, NumColumns; simpl; lia.
  - vm_compute. reflexivity.
  - discriminate Habs.
Qed.

(** ** Element access through a valid view *)

Lemma subscript_Some {ElementType} (buf : list ElementType) p i a :
  subscript buf p i = Some a <->
  exists base, p = Some base /\ a = (base + Z.to_nat i)%nat /\ (a < length buf)%nat.
Proof.
  unfold subscript, ptr_add. destruct p as [base|]; simpl.
  - destruct (Nat.ltb_spec (base + Z.to_nat i) (length buf)); split.
    + intros [= <-]. eauto.
    + intros (b & [= <-] & -> & _). reflexivity.
    + discriminate.
    + intros (b & [= <-] & -> & Hlt). lia.
  - split; [discriminate | intros (b & Hb & _); discriminate].
Qed.

(** The position a subscript designates depends on the buffer only through
    its length. *)
Lemma subscript_length {ElementType} (buf buf' : list ElementType) p i :
  length buf' = length buf -> subscript buf' p i = subscript buf p i.
Proof. intros Hlen. unfold subscript. now rewrite Hlen. Qed.

(** In a valid view, a valid index pair designates the position given by the
    unbounded offset, and that position is inside the buffer. *)
Lemma valid_view_subscript {ElementType Layout} (buf : list ElementType)
    (m : MatrixBase Layout) r c :
  valid_view buf m -> valid_index m r c ->
  exists p,
    _pData m = Some p /\
    0 <= exact_offset m r c /\
    GetIndex m r c = exact_offset m r c /\
    (p + Z.to_nat (exact_offset m r c) < length buf)%nat /\
    subscript buf (_pData m) (GetIndex m r c) =
      Some (p + Z.to_nat (exact_offset m r c))%nat.
Proof.
  intros (Hinc & Hlen & Hin) Hv. destruct (Hin r c Hv) as (p & Hp & Hlt).
  assert (Hnn : 0 <= exact_offset m r c).
  { destruct Hv as [Hr Hc]. destruct Hinc as [Hinc _].
    unfold exact_offset, GetRowIncrement, GetColumnIncrement.
    destruct Layout; nia. }
  assert (Hex : GetIndex m r c = exact_offset m r c).
  { apply GetIndex_exact. rewrite max_modulus in Hlen. lia. }
  exists p. repeat split; try assumption; try lia.
  rewrite Hex. apply subscript_Some. exists p. repeat split; try assumption. lia.
Qed.

Lemma valid_view_call {ElementType Layout} (buf : list ElementType)
    (m : MatrixBase Layout) r c :
  valid_view buf m -> valid_index m r c ->
  exists p, _pData m = Some p /\
    ConstMatrixReference.operator_call buf m r c =
      buf !! (p + Z.to_nat (exact_offset m r c))%nat /\
    is_Some (ConstMatrixReference.operator_call buf m r c).
Proof.
  intros Hvv Hv.
  destruct (valid_view_subscript buf m r c Hvv Hv) as (p & Hp & _ & _ & Hlt & Hs).
  exists p. unfold ConstMatrixReference.operator_call. rewrite Hs. simpl.
  repeat split; try assumption. now apply lookup_lt_is_Some.
Qed.

(** ** The dimensioned constructor *)

Lemma Matrix_ctor_view {ElementType} `{ValueInit ElementType} Layout nr nc :
  view (Matrix.ctor (ElementType := ElementType) Layout nr nc) =
  Matrix.attach (MatrixBase_ctor Layout nr nc).
Proof. reflexivity. Qed.

Lemma exact_offset_attach {Layout} (m : MatrixBase Layout) r c :
  exact_offset (Matrix.attach m) r c = exact_offset m r c.
Proof. destruct Layout; reflexivity. Qed.

Lemma GetIndex_attach {Layout} (m : MatrixBase Layout) r c :
  GetIndex (Matrix.attach m) r c = GetIndex m r c.
Proof. destruct Layout; reflexivity. Qed.

Lemma valid_index_attach {Layout} (m : MatrixBase Layout) r c :
  valid_index (Matrix.attach m) r c <-> valid_index m r c.
Proof. reflexivity. Qed.

Lemma Matrix_ctor_length {ElementType} `{ValueInit ElementType} Layout nr nc :
  0 <= nr -> 0 <= nc -> nr * nc <= SizeT.max ->
  Z.of_nat (length (buffer (Matrix.ctor (ElementType := ElementType) Layout nr nc)))
    = nr * nc.
Proof.
  intros Hnr Hnc Hfit. unfold Matrix.ctor. simpl.
  rewrite length_replicate, mul_small; rewrite ?max_modulus in *; nia.
Qed.

(** A view over any buffer of [numRows * numColumns] elements, built from the
    dimensions and attached to the start of the buffer, is valid. *)
Lemma attach_valid_view {ElementType} Layout nr nc (buf : list ElementType) :
  SizeT.in_range nr -> SizeT.in_range nc -> nr * nc <= SizeT.max ->
  Z.of_nat (length buf) = nr * nc ->
  valid_view buf (Matrix.attach (MatrixBase_ctor Layout nr nc)).
Proof.
  intros Hnr Hnc Hfit Hlen. repeat split.
  - destruct Layout; simpl; apply Hnr || apply Hnc.
  - destruct Layout; simpl; apply Hnr || apply Hnc.
  - lia.
  - intros r c Hv. exists 0%nat. split; [reflexivity|].
    rewrite exact_offset_attach.
    apply valid_index_attach, exact_offset_ctor_bound in Hv. lia.
Qed.

Lemma Matrix_ctor_valid_view {ElementType} `{ValueInit ElementType} Layout nr nc :
  SizeT.in_range nr -> SizeT.in_range nc -> nr * nc <= SizeT.max ->
  valid_view (buffer (Matrix.ctor (ElementType := ElementType) Layout nr nc))
             (view (Matrix.ctor (ElementType := ElementType) Layout nr nc)).
Proof.
  intros Hnr Hnc Hfit. apply attach_valid_view; try assumption.
  apply Matrix_ctor_length; try assumption; apply Hnr || apply Hnc.
Qed.

(** The matrix of [Matrix.ctor], for [size_t] dimensions whose product is a
    [size_t]: its shape, its buffer and its elements. *)
Lemma Matrix_ctor_state {ElementType} `{ValueInit ElementType} Layout (nr nc : Z) :
  SizeT.in_range nr -> SizeT.in_range nc -> nr * nc <= SizeT.max ->
  let s := Matrix.ctor (ElementType := ElementType) Layout nr nc in
  NumRows (view s) = nr /\ NumColumns (view s) = nc /\
  Z.of_nat (length (buffer s)) = nr * nc /\
  Forall (fun x => x = value_init) (buffer s) /\
  forall r c, valid_index (view s) r c ->
    ConstMatrixReference.operator_call (buffer s) (view s) r c = Some value_init.
Proof.
  intros Hnr Hnc Hfit s.
  assert (Hall : Forall (fun x => x = value_init) (buffer s)).
  { apply Forall_forall. intros x Hx. now apply elem_of_replicate in Hx as [-> _]. }
  repeat split; try assumption.
  - apply Matrix_ctor_length; try assumption; apply Hnr || apply Hnc.
  - intros r c Hv.
    destruct (valid_view_call (buffer s) (view s) r c) as (p & _ & Hcall & [x Hx]);
      try assumption.
    { now apply Matrix_ctor_valid_view. }
    rewrite Hx. f_equal. rewrite Hcall in Hx.
    rewrite Forall_forall in Hall. apply Hall. eapply list_elem_of_lookup_2, Hx.
Qed.

(** The dimensioned constructor returns the matrix of [Matrix.ctor] or
    throws, as the sizing constructor of its vector decides. *)
Lemma construct_cases {ElementType} `{ValueInit ElementType}
    `{VectorAllocation ElementType} Layout (nr nc : Z) :
  let n := SizeT.mul nr nc in
  (max_size < n -> Matrix.construct Layout nr nc = Throws length_error) /\
  (n <= max_size -> 0 < n -> allocates n = false ->
   Matrix.construct Layout nr nc = Throws bad_alloc) /\
  (n <= max_size -> n <= 0 \/ allocates n = true ->
   Matrix.construct Layout nr nc = Returns (Matrix.ctor Layout nr nc)).
Proof.
  intros n. unfold Matrix.construct, vector_sized. fold n.
  destruct (Z.ltb_spec max_size n) as [Hbig | Hsmall].
  - split; [reflexivity|]. split; intros; lia.
  - split; [intros; lia|].
    destruct (Z.ltb_spec 0 n) as [Hpos | Hzero]; simpl.
    + destruct (allocates n) eqn:Ha; simpl.
      * split; [intros _ _ [=] | intros; reflexivity].
      * split; [intros; reflexivity | intros _ [? | [=]]; lia].
    + split; [intros; lia | intros; reflexivity].
Qed.

(** C9 (as amended): for [size_t] dimensions whose product is a [size_t],
    does not exceed [max_size()] of the vector and, unless it is [0], is
    supplied by the allocator, the dimensioned constructor builds a matrix of
    that shape with a buffer of exactly [numRows * numColumns] elements, all
    value-initialised (zero), and every valid [element(r, c)] of the new
    matrix of either layout is that value.  When the product exceeds
    [max_size()] the constructor throws [std::length_error], when the
    allocator does not supply it the constructor throws [std::bad_alloc];
    no matrix is built then. *)
Theorem Matrix_construct_zero {ElementType} `{ValueInit ElementType}
    `{VectorAllocation ElementType} Layout (nr nc : Z) :
  SizeT.in_range nr -> SizeT.in_range nc -> nr * nc <= SizeT.max ->
  (nr * nc <= max_size -> nr * nc = 0 \/ allocates (nr * nc) = true ->
   exists s,
     Matrix.construct Layout nr nc = Returns s /\
     NumRows (view s) = nr /\ NumColumns (view s) = nc /\
     GetLayout (view s) = Layout /\
     Z.of_nat (length (buffer s)) = nr * nc /\
     Forall (fun x => x = value_init) (buffer s) /\
     forall r c, valid_index (view s) r c ->
       ConstMatrixReference.operator_call (buffer s) (view s) r c
         = Some value_init) /\
  (max_size < nr * nc ->
   Matrix.construct (ElementType := ElementType) Layout nr nc
     = Throws length_error) /\
  (nr * nc <= max_size -> 0 < nr * nc -> allocates (nr * nc) = false ->
   Matrix.construct (ElementType := ElementType) Layout nr nc
     = Throws bad_alloc).
Proof.
  intros Hnr Hnc Hfit.
  assert (Hmul : SizeT.mul nr nc = nr * nc).
  { apply mul_small. destruct Hnr, Hnc. rewrite max_modulus in Hfit. nia. }
  destruct (construct_cases (ElementType := ElementType) Layout nr nc)
    as (Hlen & Hbad & Hret).
  rewrite Hmul in Hlen, Hbad, Hret.
  split; [|split; assumption].
  intros Hmax Halloc. exists (Matrix.ctor Layout nr nc).
  split. { apply Hret; [exact Hmax|]. destruct Halloc; [left; lia | now right]. }
  destruct (Matrix_ctor_state (ElementType := ElementType) Layout nr nc Hnr Hnc Hfit)
    as (Hr & Hc & Hl & Hall & Hel).
  repeat split; assumption.
Qed.

Lemma Matrix_construct_zero_witness :
  exists s,
    Matrix.construct (ElementType := Z) columnMajor 3 3 = Returns s /\
    NumRows (view s) = 3 /\ NumColumns (view s) = 3 /\
    Z.of_nat (length (buffer s)) = 3 * 3 /\
    forall r c, valid_index (view s) r c ->
      ConstMatrixReference.operator_call (buffer s) (view s) r c = Some 0.
Proof.
  destruct (Matrix_construct_zero (ElementType := Z) columnMajor 3 3)
    as (Hbuilt & _ & _);
    try (unfold SizeT.in_range; rewrite max_eq; lia).
  destruct Hbuilt as (s & Hs & Hr & Hc & _ & Hlen & _ & Hel).
  - vm_compute. discriminate.
  - right. reflexivity.
  - exists s. repeat split; assumption.
Defined.

(** C9, as stated, fails in two ways.  When the product of the dimensions
    leaves the range of [size_t], [Matrix(2^32, 2^32)] is built with a buffer
    of [0] elements, so the valid [element(0, 0)] is not an element of the
    buffer.  When the product exceeds [max_size()] of the vector,
    [Matrix(2^62, 1)] throws [std::length_error] and no matrix is built. *)
Lemma Matrix_construct_counterexample :
  SizeT.in_range 4294967296 /\
  (exists s,
     Matrix.construct (ElementType := Z) rowMajor 4294967296 4294967296
       = Returns s /\
     valid_index (view s) 0 0 /\
     buffer s = [] /\
     ConstMatrixReference.operator_call (buffer s) (view s) 0 0 = None) /\
  SizeT.in_range 4611686018427387904 /\
  Matrix.construct (ElementType := Z) rowMajor 4611686018427387904 1
    = Throws length_error.
Proof.
  split; [vm_compute; split; discriminate|]. split.
  - eexists. split; [vm_compute; reflexivity|].
    repeat split; try (vm_compute; reflexivity || discriminate).
  - split; [vm_compute; split; discriminate | vm_compute; reflexivity].
Qed.

(** ** Writing through the mutable accessor *)

Lemma call_after_insert {ElementType Layout} (buf : list ElementType)
    (m : MatrixBase Layout) a v r c :
  subscript buf (_pData m) (GetIndex m r c) = Some a ->
  ConstMatrixReference.operator_call (<[a := v]> buf) m r c = Some v.
Proof.
  intros Hs. unfold ConstMatrixReference.operator_call.
  rewrite (subscript_length buf) by apply length_insert.
  rewrite Hs. simpl. apply list_lookup_insert_eq.
  apply subscript_Some in Hs as (_ & _ & _ & Hlt). exact Hlt.
Qed.

Lemma call_insert_other {ElementType Layout} (buf : list ElementType)
    (m : MatrixBase Layout) a v r c i j :
  subscript buf (_pData m) (GetIndex m r c) = Some a ->
  GetIndex m i j <> GetIndex m r c ->
  ConstMatrixReference.operator_call (<[a := v]> buf) m i j =
  ConstMatrixReference.operator_call buf m i j.
Proof.
  intros Hs Hne. unfold ConstMatrixReference.operator_call.
  rewrite (subscript_length buf) by apply length_insert.
  destruct (subscript buf (_pData m) (GetIndex m i j)) as [a'|] eqn:Hs'; [|reflexivity].
  simpl. apply list_lookup_insert_ne.
  apply subscript_Some in Hs as (p & Hp & -> & _).
  apply subscript_Some in Hs' as (p' & Hp' & -> & _).
  rewrite Hp in Hp'. injection Hp' as <-.
  pose proof (GetIndex_range m i j). pose proof (GetIndex_range m r c). lia.
Qed.

(** The effect of one assignment through the mutable accessor. *)
Lemma assign_spec {ElementType Layout} (s : ViewState ElementType Layout)
    (row col : Z) (value : ElementType) :
  valid_view (buffer s) (view s) -> valid_index (view s) row col ->
  exists s' a,
    MatrixReference.assign s row col value = Some s' /\
    MatrixReference.operator_call (buffer s) (view s) row col = Some a /\
    view s' = view s /\
    length (buffer s') = length (buffer s) /\
    (forall k : nat, k <> a -> buffer s' !! k = buffer s !! k) /\
    (forall i j, GetIndex (view s) i j <> GetIndex (view s) row col ->
       ConstMatrixReference.operator_call (buffer s') (view s) i j =
       ConstMatrixReference.operator_call (buffer s) (view s) i j) /\
    ConstMatrixReference.operator_call (buffer s') (view s) row col = Some value.
Proof.
  intros Hvv Hv.
  destruct (valid_view_subscript _ _ _ _ Hvv Hv) as (p & Hp & _ & _ & Hlt & Hs).
  eexists _, _. unfold MatrixReference.assign, MatrixReference.operator_call.
  rewrite Hs. simpl. repeat split.
  - apply length_insert.
  - intros k Hk. apply list_lookup_insert_ne. congruence.
  - intros i j Hne. now apply call_insert_other with (r := row) (c := col).
  - now apply call_after_insert.
Qed.

(** C10: in a valid mutable view, the assignment [m(row, col) = value] at a
    valid index pair succeeds and changes one position of the buffer only:
    the view (dimensions, layout, stride) and the length of the buffer are
    unchanged, every other position of the buffer keeps its value, every
    element [(i, j)] with another offset reads as before, and the read-only
    accessor returns the written value at [(row, col)]. *)
Theorem assign_frame {ElementType Layout} (s : ViewState ElementType Layout)
    (row col : Z) (value : ElementType) :
  valid_view (buffer s) (view s) -> valid_index (view s) row col ->
  exists s' a,
    MatrixReference.assign s row col value = Some s' /\
    MatrixReference.operator_call (buffer s) (view s) row col = Some a /\
    view s' = view s /\
    NumRows (view s') = NumRows (view s) /\
    NumColumns (view s') = NumColumns (view s) /\
    GetLayout (view s') = GetLayout (view s) /\
    GetRowIncrement (view s') = GetRowIncrement (view s) /\
    GetColumnIncrement (view s') = GetColumnIncrement (view s) /\
    length (buffer s') = length (buffer s) /\
    (forall k : nat, k <> a -> buffer s' !! k = buffer s !! k) /\
    (forall i j, GetIndex (view s) i j <> GetIndex (view s) row col ->
       ConstMatrixReference.operator_call (buffer s') (view s') i j =
       ConstMatrixReference.operator_call (buffer s) (view s) i j) /\
    ConstMatrixReference.operator_call (buffer s') (view s') row col = Some value.
Proof.
  intros Hvv Hv.
  destruct (assign_spec s row col value Hvv Hv)
    as (s' & a & Hs' & Ha & Hview & Hlen & Hpos & Hother & Hsame).
  exists s', a. rewrite Hview. repeat split; assumption.
Qed.

Lemma assign_frame_witness :
  let s := Matrix.ctor (ElementType := Z) columnMajor 3 3 in
  exists s',
    MatrixReference.assign s 1 1 5 = Some s' /\
    view s' = view s /\
    ConstMatrixReference.operator_call (buffer s') (view s') 1 1 = Some 5 /\
    ConstMatrixReference.operator_call (buffer s') (view s') 0 2 =
    ConstMatrixReference.operator_call (buffer s) (view s) 0 2.
Proof.
  intros s.
  destruct (assign_frame s 1 1 5) as (s' & a & Ha & _ & Hview & _ & _ & _ & _ & _ & _ & _ & Hother & Hsame).
  - apply Matrix_ctor_valid_view; unfold SizeT.in_range; rewrite max_eq; lia.
  - unfold valid_index, NumRows, NumColumns; simpl; lia.
  - exists s'. repeat split; try assumption.
    apply Hother. vm_compute. discriminate.
Defined.

(** ** Blocks *)

Lemma GetBlock_mutable_eq {Layout} (m : MatrixBase Layout) fr fc nr nc :
  MatrixReference.GetBlock m fr fc nr nc = ConstMatrixReference.GetBlock m fr fc nr nc.
Proof. reflexivity. Qed.

Lemma exact_offset_block {Layout} (m : MatrixBase Layout) fr fc nr nc i j :
  exact_offset (ConstMatrixReference.GetBlock m fr fc nr nc) i j = exact_offset m i j.
Proof. destruct Layout; reflexivity. Qed.

Lemma GetIndex_block {Layout} (m : MatrixBase Layout) fr fc nr nc i j :
  GetIndex (ConstMatrixReference.GetBlock m fr fc nr nc) i j = GetIndex m i j.
Proof. destruct Layout; reflexivity. Qed.

Lemma exact_offset_add {Layout} (m : MatrixBase Layout) r c i j :
  exact_offset m (r + i) (c + j) = exact_offset m r c + exact_offset m i j.
Proof. unfold exact_offset. lia. Qed.

Lemma exact_offset_nonneg {Layout} (m : MatrixBase Layout) r c :
  0 <= _increment m -> 0 <= r -> 0 <= c -> 0 <= exact_offset m r c.
Proof.
  intros Hinc Hr Hc. unfold exact_offset, GetRowIncrement, GetColumnIncrement.
  destruct Layout; nia.
Qed.

(** An element of an in-range block is the element of the parent at the
    shifted index pair; both accesses succeed. *)
Lemma block_call {ElementType Layout} (buf : list ElementType)
    (m : MatrixBase Layout) fr fc nr nc i j :
  valid_view buf m ->
  0 <= fr -> 0 <= fc -> fr + nr <= NumRows m -> fc + nc <= NumColumns m ->
  0 <= i < nr -> 0 <= j < nc ->
  ConstMatrixReference.operator_call buf (ConstMatrixReference.GetBlock m fr fc nr nc) i j
    = ConstMatrixReference.operator_call buf m (fr + i) (fc + j) /\
  is_Some (ConstMatrixReference.operator_call buf m (fr + i) (fc + j)).
Proof.
  intros Hvv Hfr Hfc Hnr Hnc Hi Hj.
  assert (Hv : valid_index m (fr + i) (fc + j)) by (unfold valid_index; lia).
  assert (Hv0 : valid_index m fr fc) by (unfold valid_index; lia).
  destruct (valid_view_call buf m _ _ Hvv Hv) as (p & Hp & Hcall & Hsome).
  split; [|exact Hsome]. rewrite Hcall.
  destruct (valid_view_subscript buf m _ _ Hvv Hv) as (p1 & Hp1 & _ & _ & Hlt & _).
  destruct (valid_view_subscript buf m _ _ Hvv Hv0) as (p0 & Hp0 & Hnn0 & Hex0 & _ & _).
  rewrite Hp in Hp1, Hp0. injection Hp1 as <-. injection Hp0 as <-.
  assert (Hinc : 0 <= _increment m) by (destruct Hvv as ([? _] & _); assumption).
  assert (Hnnij : 0 <= exact_offset m i j) by (apply exact_offset_nonneg; lia).
  rewrite exact_offset_add in *.
  assert (Hlen : Z.of_nat (length buf) <= SizeT.max) by apply Hvv.
  assert (Hexij : GetIndex m i j = exact_offset m i j).
  { apply GetIndex_exact. rewrite max_modulus in Hlen. lia. }
  unfold ConstMatrixReference.operator_call, ConstMatrixReference.GetBlock,
    ConstMatrixReference.ctor. simpl.
  change (GetIndex (mkMatrixBase _ nr nc (_increment m)) i j)
    with (GetIndex (ConstMatrixReference.GetBlock m fr fc nr nc) i j).
  rewrite GetIndex_block, Hexij, Hex0, Hp.
  unfold subscript, ptr_add. simpl.
  replace (p + Z.to_nat (exact_offset m fr fc) + Z.to_nat (exact_offset m i j))%nat
    with (p + Z.to_nat (exact_offset m fr fc + exact_offset m i j))%nat by lia.
  destruct (Nat.ltb_spec (p + Z.to_nat (exact_offset m fr fc + exact_offset m i j))
              (length buf)); [reflexivity | lia].
Qed.

(** An in-range block of a valid view is a valid view of the same buffer. *)
Lemma GetBlock_valid_view {ElementType Layout} (buf : list ElementType)
    (m : MatrixBase Layout) fr fc nr nc :
  valid_view buf m ->
  0 <= fr -> 0 <= fc -> fr + nr <= NumRows m -> fc + nc <= NumColumns m ->
  valid_view buf (ConstMatrixReference.GetBlock m fr fc nr nc).
Proof.
  intros Hvv Hfr Hfc Hnr Hnc. split; [apply Hvv|]. split; [apply Hvv|].
  intros i j [Hi Hj]. unfold NumRows, NumColumns in Hi, Hj. simpl in Hi, Hj.
  assert (Hv : valid_index m (fr + i) (fc + j)) by (unfold valid_index; lia).
  assert (Hv0 : valid_index m fr fc) by (unfold valid_index; lia).
  destruct (valid_view_subscript buf m _ _ Hvv Hv) as (p & Hp & _ & _ & Hlt & _).
  destruct (valid_view_subscript buf m _ _ Hvv Hv0) as (p0 & Hp0 & Hnn0 & Hex0 & _ & _).
  rewrite Hp in Hp0. injection Hp0 as <-.
  exists (p + Z.to_nat (exact_offset m fr fc))%nat. split.
  - simpl. rewrite Hp, Hex0. reflexivity.
  - rewrite exact_offset_block. rewrite exact_offset_add in Hlt.
    assert (0 <= exact_offset m i j).
    { apply exact_offset_nonneg; try lia. destruct Hvv as ([? _] & _). assumption. }
    lia.
Qed.

(** C6: an in-range block of a valid view, extracted by the read-only or by
    the mutable [GetBlock], has the requested dimensions and the row and
    column increments of its parent, and its [element(i, j)] is the parent's
    [element(firstRow + i, firstColumn + j)] for all valid [(i, j)] of the
    block. *)
Theorem GetBlock_inherits {ElementType Layout} (buf : list ElementType)
    (m : MatrixBase Layout) (firstRow firstColumn numRows numColumns : Z) :
  valid_view buf m ->
  0 <= firstRow -> 0 <= firstColumn ->
  firstRow + numRows <= NumRows m -> firstColumn + numColumns <= NumColumns m ->
  forall b,
    b = ConstMatrixReference.GetBlock m firstRow firstColumn numRows numColumns \/
    b = MatrixReference.GetBlock m firstRow firstColumn numRows numColumns ->
    NumRows b = numRows /\ NumColumns b = numColumns /\
    GetRowIncrement b = GetRowIncrement m /\
    GetColumnIncrement b = GetColumnIncrement m /\
    forall i j, valid_index b i j ->
      ConstMatrixReference.operator_call buf b i j =
      ConstMatrixReference.operator_call buf m (firstRow + i) (firstColumn + j) /\
      is_Some (ConstMatrixReference.operator_call buf b i j).
Proof.
  intros Hvv Hfr Hfc Hnr Hnc b Hb.
  assert (Hb' : b = ConstMatrixReference.GetBlock m firstRow firstColumn numRows numColumns).
  { destruct Hb as [-> | ->]; [reflexivity | apply GetBlock_mutable_eq]. }
  subst b. split; [reflexivity|]. split; [reflexivity|].
  split; [destruct Layout; reflexivity|]. split; [destruct Layout; reflexivity|].
  intros i j Hv.
  destruct (block_call buf m firstRow firstColumn numRows numColumns i j)
    as [Heq Hsome]; try assumption; try apply Hv.
  split; [exact Heq | rewrite Heq; exact Hsome].
Qed.

Lemma GetBlock_inherits_witness :
  let s := Matrix.ctor (ElementType := Z) columnMajor 3 3 in
  let b := MatrixReference.GetBlock (view s) 1 1 2 2 in
  GetRowIncrement b = 1 /\ GetColumnIncrement b = 3 /\
  ConstMatrixReference.operator_call (buffer s) b 0 0 =
  ConstMatrixReference.operator_call (buffer s) (view s) 1 1.
Proof.
  intros s b.
  assert (Hvv : valid_view (buffer s) (view s)).
  { apply Matrix_ctor_valid_view; unfold SizeT.in_range; rewrite max_eq; lia. }
  assert (Hrows : 1 + 2 <= NumRows (view s)) by (unfold NumRows; simpl; lia).
  assert (Hcols : 1 + 2 <= NumColumns (view s)) by (unfold NumColumns; simpl; lia).
  destruct (GetBlock_inherits (buffer s) (view s) 1 1 2 2 Hvv ltac:(lia) ltac:(lia)
              Hrows Hcols b (or_intror eq_refl)) as (_ & _ & Hr & Hc & Hel).
  split; [exact Hr|]. split; [exact Hc|].
  apply (Hel 0 0). unfold valid_index, NumRows, NumColumns; simpl; lia.
Defined.

Lemma GetBlock_full {Layout} (m : MatrixBase Layout) :
  ConstMatrixReference.GetBlock m 0 0 (NumRows m) (NumColumns m) = m.
Proof.
  destruct m as [p nr nc inc].
  unfold ConstMatrixReference.GetBlock, ConstMatrixReference.ctor, NumRows, NumColumns.
  simpl. f_equal.
  assert (H0 : GetIndex (mkMatrixBase (Layout := Layout) p nr nc inc) 0 0 = 0).
  { rewrite GetIndex_wrap. unfold exact_offset. now rewrite !Z.mul_0_l. }
  rewrite H0. destruct p as [base|]; simpl; [|reflexivity].
  f_equal. lia.
Qed.

(** [operator==] returns [true] exactly when the dimensions match. *)
Lemma operator_eq_dimensions {Layout} (m other : MatrixBase Layout) :
  ConstMatrixReference.operator_eq m other = true <->
  NumRows m = NumRows other /\ NumColumns m = NumColumns other.
Proof.
  unfold ConstMatrixReference.operator_eq.
  destruct (Z.eqb_spec (NumRows m) (NumRows other));
    destruct (Z.eqb_spec (NumColumns m) (NumColumns other)); simpl;
    split; try discriminate; try tauto; intros [? ?]; contradiction.
Qed.

(** C7: the block [(0, 0, numRows, numColumns)] of a matrix is equal to the
    matrix: [operator==] returns [true] on the two, and they are equal in
    the element-wise sense of the specification (same dimensions, same
    value at every index pair). *)
Theorem GetBlock_full_equal {ElementType Layout} (buf : list ElementType)
    (m : MatrixBase Layout) :
  ConstMatrixReference.operator_eq m
    (ConstMatrixReference.GetBlock m 0 0 (NumRows m) (NumColumns m)) = true /\
  elementwise_equal buf m
    buf (ConstMatrixReference.GetBlock m 0 0 (NumRows m) (NumColumns m)).
Proof.
  rewrite GetBlock_full. split.
  - now apply operator_eq_dimensions.
  - repeat split.
Qed.

(** ** Equality, column extraction and malformed literals on the code *)

(** C3, on the code: the 1x1 row-major matrices built from [{{1}}] and
    [{{2}}] have different elements, are not element-wise equal, and
    [operator==] returns [true] on them. *)
Theorem operator_eq_ignores_elements :
  exists a b,
    Matrix.ctor_list rowMajor [[1]] = Some a /\
    Matrix.ctor_list rowMajor [[2]] = Some b /\
    ConstMatrixReference.operator_call (buffer a) (view a) 0 0 = Some 1 /\
    ConstMatrixReference.operator_call (buffer b) (view b) 0 0 = Some 2 /\
    ~ elementwise_equal (buffer a) (view a) (buffer b) (view b) /\
    ConstMatrixReference.operator_eq (view a) (view b) = true.
Proof.
  eexists _, _. split; [vm_compute; reflexivity|]. split; [vm_compute; reflexivity|].
  repeat split.
  intros (_ & _ & Hel). specialize (Hel 0 0).
  assert (Hv : 0 <= 0 < 1 /\ 0 <= 0 < 1) by lia.
  specialize (Hel Hv). vm_compute in Hel. discriminate Hel.
Qed.

(** C4, on the code: for the 2x3 row-major matrix built from
    [{{1,2,3},{4,5,6}}], whose first column holds [1] and [4], [GetColumn(0)]
    is the default vector view: it has [0] elements, not [numRows = 2], and
    no first element. [GetColumn] returns that view for every matrix and
    every index. *)
Theorem GetColumn_default :
  (forall Layout (m : MatrixBase Layout) index,
     ConstMatrixReference.GetColumn m index = ConstVectorReference_default) /\
  exists s,
    Matrix.ctor_list rowMajor literal_2x3 = Some s /\
    NumRows (view s) = 2 /\
    ConstMatrixReference.operator_call (buffer s) (view s) 0 0 = Some 1 /\
    ConstMatrixReference.operator_call (buffer s) (view s) 1 0 = Some 4 /\
    vector_size (ConstMatrixReference.GetColumn (view s) 0) = 0 /\
    ConstVectorReference_at (buffer s) (ConstMatrixReference.GetColumn (view s) 0) 0
      = None.
Proof.
  split; [reflexivity|].
  eexists. split; [vm_compute; reflexivity|]. repeat split.
Qed.

(** C5, on the code: the literal [{{1,2},{3}}], whose second row is shorter
    than its first, is accepted: the constructor returns the 2x2 matrix whose
    buffer is [1, 2, 3, 0]. *)
Theorem ctor_list_accepts_ragged :
  Matrix.ctor_list rowMajor literal_ragged =
  Some (mkViewState (mkMatrixBase (Some 0%nat) 2 2 2) [1; 2; 3; 0]).
Proof. vm_compute. reflexivity. Qed.

(** ** The literal constructor *)

Lemma valid_view_length {ElementType Layout} (buf buf' : list ElementType)
    (m : MatrixBase Layout) :
  length buf' = length buf -> valid_view buf m -> valid_view buf' m.
Proof. intros Hlen (Hinc & Hmax & Hin). unfold valid_view. rewrite Hlen. auto. Qed.

Lemma injective_on_valid_attach {Layout} (m : MatrixBase Layout) :
  injective_on_valid m -> injective_on_valid (Matrix.attach m).
Proof.
  intros Hinj r1 c1 r2 c2 H1 H2. rewrite !GetIndex_attach. now apply Hinj.
Qed.

Lemma size_small {A} (l : list A) :
  Z.of_nat (length l) <= SizeT.max -> Matrix.size l = Z.of_nat (length l).
Proof. intros Hl. apply wrap_small. rewrite max_modulus in Hl. lia. Qed.

(** The inner loop stores the elements of a row that fits the row of the
    matrix at the positions [(i, j0)], [(i, j0 + 1)], ... and leaves every
    other element as it was. *)
Lemma fill_row_spec {ElementType Layout} (row : list ElementType) :
  forall (s : ViewState ElementType Layout) (i j0 : Z),
    valid_view (buffer s) (view s) ->
    injective_on_valid (view s) ->
    NumColumns (view s) <= SizeT.max ->
    0 <= i < NumRows (view s) ->
    0 <= j0 -> j0 + Z.of_nat (length row) <= NumColumns (view s) ->
    exists s',
      Matrix.fill_row s i j0 row = Some s' /\
      view s' = view s /\
      length (buffer s') = length (buffer s) /\
      (forall k, 0 <= k < Z.of_nat (length row) ->
         ConstMatrixReference.operator_call (buffer s') (view s) i (j0 + k) =
         row !! Z.to_nat k) /\
      (forall r c, valid_index (view s) r c ->
         ~ (r = i /\ j0 <= c < j0 + Z.of_nat (length row)) ->
         ConstMatrixReference.operator_call (buffer s') (view s) r c =
         ConstMatrixReference.operator_call (buffer s) (view s) r c).
Proof.
  induction row as [|x rest IH]; intros s i j0 Hvv Hinj Hmax Hi Hj0 Hfit.
  - exists s. simpl. repeat split; intros; simpl in *; lia.
  - simpl length in Hfit. rewrite Nat2Z.inj_succ in Hfit.
    assert (Hv : valid_index (view s) i j0) by (unfold valid_index; lia).
    destruct (assign_spec s i j0 x Hvv Hv)
      as (s1 & a & Hs1 & _ & Hview & Hlen & _ & Hother & Hsame).
    assert (Hnext : SizeT.add j0 1 = j0 + 1).
    { apply add_small. rewrite max_modulus in Hmax. lia. }
    destruct (IH s1 i (j0 + 1)) as (s' & Hs' & Hview' & Hlen' & Hrow & Hframe).
    { rewrite Hview. now apply (valid_view_length (buffer s)). }
    { now rewrite Hview. }
    { now rewrite Hview. }
    { now rewrite Hview. }
    { lia. }
    { rewrite Hview. lia. }
    rewrite Hview in Hrow, Hframe.
    exists s'. simpl. rewrite Hs1. simpl. rewrite Hnext.
    split; [exact Hs'|]. split; [congruence|]. split; [congruence|]. split.
    + intros k Hk. simpl length in Hk. rewrite Nat2Z.inj_succ in Hk.
      destruct (Z.eq_dec k 0) as [-> | Hk0].
      * rewrite Z.add_0_r. simpl. rewrite Hframe; [exact Hsame | exact Hv | lia].
      * replace (j0 + k) with (j0 + 1 + (k - 1)) by lia.
        rewrite Hrow by lia.
        replace (Z.to_nat k) with (S (Z.to_nat (k - 1))) by lia. reflexivity.
    + intros r c Hrc Hout. simpl length in Hout. rewrite Nat2Z.inj_succ in Hout.
      rewrite Hframe; [|exact Hrc|lia].
      apply Hother. intros Heq. apply Hinj in Heq; [|exact Hrc|exact Hv]. lia.
Qed.




(** * Further properties of the code *)

(** ** Strides and unchecked indices *)

(** X1: [GetIndex] is [rowIndex * GetRowIncrement() + columnIndex *
    GetColumnIncrement()] in [size_t] arithmetic, for every view of either
    layout; the row increment of a column-major view and the column increment
    of a row-major view are [1], and a matrix built from its dimensions has
    the other increment equal to [numRows], respectively [numColumns]. *)
Theorem GetIndex_strides {Layout} (m : MatrixBase Layout) (nr nc r c : Z) :
  GetIndex m r c =
    SizeT.wrap (r * GetRowIncrement m + c * GetColumnIncrement m) /\
  match GetLayout m with
  | columnMajor => GetRowIncrement m = 1
  | rowMajor => GetColumnIncrement m = 1
  end /\
  GetColumnIncrement (MatrixBase_ctor columnMajor nr nc) = nr /\
  GetRowIncrement (MatrixBase_ctor rowMajor nr nc) = nc.
Proof.
  split; [apply GetIndex_wrap|].
  split; [destruct Layout; reflexivity|]. split; reflexivity.
Qed.

(** X2: the indices are not checked, so an index one stride past the end of
    the contiguous axis designates the element at the start of the next line:
    in a row-major view [(i, j + rowIncrement)] is [(i + 1, j)], in a
    column-major view [(i + columnIncrement, j)] is [(i, j + 1)]; the offsets
    coincide and so do the values read. *)
Theorem GetIndex_unchecked_alias {ElementType} (buf : list ElementType)
    (mr : MatrixBase rowMajor) (mc : MatrixBase columnMajor) (i j : Z) :
  GetIndex mr i (j + GetRowIncrement mr) = GetIndex mr (i + 1) j /\
  GetIndex mc (i + GetColumnIncrement mc) j = GetIndex mc i (j + 1) /\
  ConstMatrixReference.operator_call buf mr i (j + GetRowIncrement mr) =
    ConstMatrixReference.operator_call buf mr (i + 1) j /\
  ConstMatrixReference.operator_call buf mc (i + GetColumnIncrement mc) j =
    ConstMatrixReference.operator_call buf mc i (j + 1).
Proof.
  assert (Hr : GetIndex mr i (j + GetRowIncrement mr) = GetIndex mr (i + 1) j).
  { rewrite !GetIndex_wrap. unfold exact_offset. f_equal.
    unfold GetRowIncrement, GetColumnIncrement. lia. }
  assert (Hc : GetIndex mc (i + GetColumnIncrement mc) j = GetIndex mc i (j + 1)).
  { rewrite !GetIndex_wrap. unfold exact_offset. f_equal.
    unfold GetRowIncrement, GetColumnIncrement. lia. }
  unfold ConstMatrixReference.operator_call. rewrite Hr, Hc. auto.
Qed.

(** ** Blocks of valid views *)

(** X3: an in-range block of a valid view is a valid view of the same buffer:
    every element of the block can be read, and the mutable [GetBlock] gives
    the same view as the constant one. *)
Theorem GetBlock_keeps_valid {ElementType Layout} (buf : list ElementType)
    (m : MatrixBase Layout) (firstRow firstColumn numRows numColumns : Z) :
  valid_view buf m ->
  0 <= firstRow -> 0 <= firstColumn ->
  firstRow + numRows <= NumRows m -> firstColumn + numColumns <= NumColumns m ->
  let b := MatrixReference.GetBlock m firstRow firstColumn numRows numColumns in
  b = ConstMatrixReference.GetBlock m firstRow firstColumn numRows numColumns /\
  valid_view buf b /\
  forall i j, valid_index b i j ->
    is_Some (ConstMatrixReference.operator_call buf b i j).
Proof.
  intros Hvv Hfr Hfc Hnr Hnc b. subst b. rewrite GetBlock_mutable_eq.
  assert (Hb : valid_view buf
            (ConstMatrixReference.GetBlock m firstRow firstColumn numRows numColumns))
    by now apply GetBlock_valid_view.
  split; [reflexivity|]. split; [exact Hb|].
  intros i j Hv. destruct (valid_view_call buf _ i j Hb Hv) as (_ & _ & _ & Hsome).
  exact Hsome.
Qed.

Lemma GetBlock_keeps_valid_witness :
  let s := Matrix.ctor (ElementType := Z) rowMajor 3 4 in
  valid_view (buffer s) (MatrixReference.GetBlock (view s) 1 2 2 2).
Proof.
  intros s.
  assert (Hvv : valid_view (buffer s) (view s)).
  { apply Matrix_ctor_valid_view; unfold SizeT.in_range; rewrite max_eq; lia. }
  assert (Hrows : 1 + 2 <= NumRows (view s)) by (unfold NumRows; simpl; lia).
  assert (Hcols : 2 + 2 <= NumColumns (view s)) by (unfold NumColumns; simpl; lia).
  apply (GetBlock_keeps_valid (buffer s) (view s) 1 2 2 2 Hvv ltac:(lia) ltac:(lia)
           Hrows Hcols).
Defined.

(** X4: blocks compose: in a valid view, the block at [(r2, c2)] of the block
    at [(r1, c1)] is the block of the original view at [(r1 + r2, c1 + c2)],
    whenever that index pair is a valid one of the original view. *)
Theorem GetBlock_GetBlock {ElementType Layout} (buf : list ElementType)
    (m : MatrixBase Layout) (r1 c1 n1 k1 r2 c2 n2 k2 : Z) :
  valid_view buf m ->
  0 <= r1 -> 0 <= c1 -> 0 <= r2 -> 0 <= c2 ->
  valid_index m (r1 + r2) (c1 + c2) ->
  ConstMatrixReference.GetBlock (ConstMatrixReference.GetBlock m r1 c1 n1 k1)
      r2 c2 n2 k2
    = ConstMatrixReference.GetBlock m (r1 + r2) (c1 + c2) n2 k2 /\
  MatrixReference.GetBlock (MatrixReference.GetBlock m r1 c1 n1 k1) r2 c2 n2 k2
    = MatrixReference.GetBlock m (r1 + r2) (c1 + c2) n2 k2.
Proof.
  intros Hvv Hr1 Hc1 Hr2 Hc2 Hv.
  enough (Heq : ConstMatrixReference.GetBlock
                  (ConstMatrixReference.GetBlock m r1 c1 n1 k1) r2 c2 n2 k2
                = ConstMatrixReference.GetBlock m (r1 + r2) (c1 + c2) n2 k2)
    by (split; exact Heq).
  destruct (valid_view_subscript buf m _ _ Hvv Hv) as (p & Hp & _ & Hex & Hlt & _).
  assert (Hinc : 0 <= _increment m) by (destruct Hvv as ([? _] & _); assumption).
  assert (Hlen : Z.of_nat (length buf) <= SizeT.max) by apply Hvv.
  assert (H1 : 0 <= exact_offset m r1 c1) by now apply exact_offset_nonneg.
  assert (H2 : 0 <= exact_offset m r2 c2) by now apply exact_offset_nonneg.
  rewrite exact_offset_add in Hex, Hlt.
  assert (Hex1 : GetIndex m r1 c1 = exact_offset m r1 c1).
  { apply GetIndex_exact. rewrite max_modulus in Hlen. lia. }
  assert (Hex2 : GetIndex m r2 c2 = exact_offset m r2 c2).
  { apply GetIndex_exact. rewrite max_modulus in Hlen. lia. }
  unfold ConstMatrixReference.GetBlock at 1 3. unfold ConstMatrixReference.ctor.
  rewrite GetIndex_block, Hex, Hex2.
  unfold ConstMatrixReference.GetBlock, ConstMatrixReference.ctor.
  rewrite Hex1, Hp. simpl. do 2 f_equal. lia.
Qed.

Lemma GetBlock_GetBlock_witness :
  let s := Matrix.ctor (ElementType := Z) columnMajor 4 4 in
  ConstMatrixReference.GetBlock (ConstMatrixReference.GetBlock (view s) 1 1 3 3)
      1 1 2 2
    = ConstMatrixReference.GetBlock (view s) 2 2 2 2.
Proof.
  intros s.
  assert (Hvv : valid_view (buffer s) (view s)).
  { apply Matrix_ctor_valid_view; unfold SizeT.in_range; rewrite max_eq; lia. }
  assert (Hv : valid_index (view s) (1 + 1) (1 + 1)).
  { unfold valid_index, NumRows, NumColumns; simpl; lia. }
  apply (GetBlock_GetBlock (buffer s) (view s) 1 1 3 3 1 1 2 2 Hvv
           ltac:(lia) ltac:(lia) ltac:(lia) ltac:(lia) Hv).
Defined.

(** ** Views share the buffer *)

(** X5: a block and its parent are views of one buffer.  In a valid view with
    an in-range block, a value assigned through the block at [(i, j)] is read
    through the parent at [(firstRow + i, firstColumn + j)], and a value
    assigned through the parent there is read through the block at
    [(i, j)]; both assignments succeed. *)
Theorem GetBlock_shares_buffer {ElementType Layout} (buf : list ElementType)
    (m : MatrixBase Layout) (firstRow firstColumn numRows numColumns i j : Z)
    (value : ElementType) :
  valid_view buf m ->
  0 <= firstRow -> 0 <= firstColumn ->
  firstRow + numRows <= NumRows m -> firstColumn + numColumns <= NumColumns m ->
  0 <= i < numRows -> 0 <= j < numColumns ->
  let b := MatrixReference.GetBlock m firstRow firstColumn numRows numColumns in
  (exists s',
     MatrixReference.assign (mkViewState b buf) i j value = Some s' /\
     view s' = b /\
     ConstMatrixReference.operator_call (buffer s') m
       (firstRow + i) (firstColumn + j) = Some value) /\
  (exists s',
     MatrixReference.assign (mkViewState m buf)
       (firstRow + i) (firstColumn + j) value = Some s' /\
     view s' = m /\
     ConstMatrixReference.operator_call (buffer s') b i j = Some value).
Proof.
  intros Hvv Hfr Hfc Hnr Hnc Hi Hj b.
  assert (Hb : valid_view buf b) by now apply GetBlock_valid_view.
  assert (Hvb : valid_index b i j) by (split; assumption).
  assert (Hvm : valid_index m (firstRow + i) (firstColumn + j))
    by (unfold valid_index; lia).
  split.
  - destruct (assign_spec (mkViewState b buf) i j value Hb Hvb)
      as (s' & a & Hs' & _ & Hview & Hlen & _ & _ & Hread).
    exists s'. split; [exact Hs'|]. split; [exact Hview|].
    simpl in Hread, Hlen.
    destruct (block_call (buffer s') m firstRow firstColumn numRows numColumns i j)
      as [Heq _]; try assumption.
    { now apply (valid_view_length buf). }
    rewrite <- Heq. exact Hread.
  - destruct (assign_spec (mkViewState m buf) _ _ value Hvv Hvm)
      as (s' & a & Hs' & _ & Hview & Hlen & _ & _ & Hread).
    exists s'. split; [exact Hs'|]. split; [exact Hview|].
    simpl in Hread, Hlen.
    destruct (block_call (buffer s') m firstRow firstColumn numRows numColumns i j)
      as [Heq _]; try assumption.
    { now apply (valid_view_length buf). }
    unfold b. rewrite GetBlock_mutable_eq, Heq. exact Hread.
Qed.

Lemma GetBlock_shares_buffer_witness :
  let s := Matrix.ctor (ElementType := Z) columnMajor 3 3 in
  exists s',
    MatrixReference.assign s (1 + 0) (1 + 0) 5 = Some s' /\
    ConstMatrixReference.operator_call (buffer s')
      (MatrixReference.GetBlock (view s) 1 1 2 2) 0 0 = Some 5.
Proof.
  intros s.
  assert (Hvv : valid_view (buffer s) (view s)).
  { apply Matrix_ctor_valid_view; unfold SizeT.in_range; rewrite max_eq; lia. }
  assert (Hrows : 1 + 2 <= NumRows (view s)) by (unfold NumRows; simpl; lia).
  assert (Hcols : 1 + 2 <= NumColumns (view s)) by (unfold NumColumns; simpl; lia).
  destruct (GetBlock_shares_buffer (buffer s) (view s) 1 1 2 2 0 0 5 Hvv
              ltac:(lia) ltac:(lia) Hrows Hcols ltac:(lia) ltac:(lia))
    as (_ & s' & Hs' & _ & Hread).
  exists s'. split; [exact Hs' | exact Hread].
Defined.

(** ** Sequences of assignments *)

Lemma assign_Some {ElementType Layout} (s s' : ViewState ElementType Layout)
    r c (v : ElementType) :
  MatrixReference.assign s r c v = Some s' <->
  exists a, subscript (buffer s) (_pData (view s)) (GetIndex (view s) r c) = Some a /\
            s' = mkViewState (view s) (<[a := v]> (buffer s)).
Proof.
  unfold MatrixReference.assign, MatrixReference.operator_call.
  destruct (subscript (buffer s) (_pData (view s)) (GetIndex (view s) r c)) as [a|];
    simpl; split.
  - intros [= <-]. eauto.
  - intros (a' & [= <-] & ->). reflexivity.
  - discriminate.
  - intros (a' & Ha & _). discriminate.
Qed.

(** X6: the last assignment to a position wins: when an assignment at
    [(row, col)] succeeds, a second assignment at the same index pair gives
    the state that the second assignment alone gives. *)
Theorem assign_overwrites {ElementType Layout} (s s1 : ViewState ElementType Layout)
    (row col : Z) (v1 v2 : ElementType) :
  MatrixReference.assign s row col v1 = Some s1 ->
  MatrixReference.assign s1 row col v2 = MatrixReference.assign s row col v2 /\
  is_Some (MatrixReference.assign s row col v2).
Proof.
  intros Hs1. apply assign_Some in Hs1 as (a & Ha & ->).
  unfold MatrixReference.assign, MatrixReference.operator_call. simpl.
  rewrite (subscript_length (buffer s)) by apply length_insert.
  rewrite Ha. simpl. rewrite list_insert_insert_eq. eauto.
Qed.

Lemma assign_overwrites_witness :
  let s := Matrix.ctor (ElementType := Z) rowMajor 2 2 in
  exists s1, MatrixReference.assign s 1 0 7 = Some s1 /\
    MatrixReference.assign s1 1 0 9 = MatrixReference.assign s 1 0 9.
Proof.
  intros s. eexists. split; [vm_compute; reflexivity|].
  apply (assign_overwrites s _ 1 0 7 9). vm_compute. reflexivity.
Defined.

(** X7: assignments at positions with different offsets commute: the two
    orders give the same state, and fail together when one of the positions
    lies outside the buffer. *)
Theorem assign_commutes {ElementType Layout} (s : ViewState ElementType Layout)
    (r1 c1 r2 c2 : Z) (v1 v2 : ElementType) :
  GetIndex (view s) r1 c1 <> GetIndex (view s) r2 c2 ->
  (s' ← MatrixReference.assign s r1 c1 v1; MatrixReference.assign s' r2 c2 v2) =
  (s' ← MatrixReference.assign s r2 c2 v2; MatrixReference.assign s' r1 c1 v1).
Proof.
  intros Hne.
  unfold MatrixReference.assign, MatrixReference.operator_call.
  destruct (subscript (buffer s) (_pData (view s)) (GetIndex (view s) r1 c1))
    as [a1|] eqn:H1;
  destruct (subscript (buffer s) (_pData (view s)) (GetIndex (view s) r2 c2))
    as [a2|] eqn:H2; simpl.
  - rewrite (subscript_length (buffer s) (<[a1:=v1]> (buffer s))),
      (subscript_length (buffer s) (<[a2:=v2]> (buffer s))) by apply length_insert.
    rewrite H1, H2. simpl. do 2 f_equal. apply list_insert_insert_ne.
    apply subscript_Some in H1 as (p & Hp & -> & _).
    apply subscript_Some in H2 as (p' & Hp' & -> & _).
    rewrite Hp in Hp'. injection Hp' as <-.
    pose proof (GetIndex_range (view s) r1 c1).
    pose proof (GetIndex_range (view s) r2 c2). lia.
  - rewrite (subscript_length (buffer s) (<[a1:=v1]> (buffer s)))
      by apply length_insert.
    rewrite H2. reflexivity.
  - rewrite (subscript_length (buffer s) (<[a2:=v2]> (buffer s)))
      by apply length_insert.
    rewrite H1. reflexivity.
  - reflexivity.
Qed.

Lemma assign_commutes_witness :
  let s := Matrix.ctor (ElementType := Z) rowMajor 2 2 in
  (s' ← MatrixReference.assign s 0 1 7; MatrixReference.assign s' 1 0 9) =
  (s' ← MatrixReference.assign s 1 0 9; MatrixReference.assign s' 0 1 7).
Proof.
  intros s. apply (assign_commutes s 0 1 1 0 7 9). vm_compute. discriminate.
Defined.

(** ** The comparison operator *)

(** X8: [operator==] is an equivalence relation on the views of a layout:
    reflexive, symmetric and transitive. *)
Theorem operator_eq_equivalence {Layout} (a b c : MatrixBase Layout) :
  ConstMatrixReference.operator_eq a a = true /\
  ConstMatrixReference.operator_eq a b = ConstMatrixReference.operator_eq b a /\
  (ConstMatrixReference.operator_eq a b = true ->
   ConstMatrixReference.operator_eq b c = true ->
   ConstMatrixReference.operator_eq a c = true).
Proof.
  split; [now apply operator_eq_dimensions|]. split.
  - unfold ConstMatrixReference.operator_eq.
    rewrite (Z.eqb_sym (NumRows a)), (Z.eqb_sym (NumColumns a)). reflexivity.
  - rewrite !operator_eq_dimensions. intros [? ?] [? ?]. split; congruence.
Qed.

Lemma operator_eq_equivalence_witness :
  ConstMatrixReference.operator_eq
    (MatrixBase_ctor rowMajor 2 3) (MatrixBase_ctor rowMajor 2 3) = true.
Proof.
  destruct (operator_eq_equivalence (MatrixBase_ctor rowMajor 2 3)
              (MatrixBase_ctor rowMajor 2 3) (MatrixBase_ctor rowMajor 2 3))
    as (_ & _ & Htrans).
  apply Htrans; reflexivity.
Defined.

(** ** The literal constructor on rows of different lengths *)








(** ** Rows longer than the first *)

Lemma subscript_None_ge {ElementType} (buf : list ElementType) base i :
  0 <= i -> Z.of_nat (length buf) <= Z.of_nat base + i ->
  subscript buf (Some base) i = None.
Proof.
  intros Hi Hge. destruct (subscript buf (Some base) i) as [a|] eqn:Ha; [|reflexivity].
  apply subscript_Some in Ha as (b & [= <-] & -> & Hlt). lia.
Qed.

(** The inner loop fails when the row reaches past the last column and the
    position one past the last column of its row is outside the buffer. *)
Lemma fill_row_overflow {ElementType Layout} (row : list ElementType) :
  forall (s : ViewState ElementType Layout) (i j0 : Z),
    valid_view (buffer s) (view s) ->
    NumColumns (view s) <= SizeT.max ->
    0 <= i < NumRows (view s) ->
    0 <= j0 <= NumColumns (view s) ->
    NumColumns (view s) < j0 + Z.of_nat (length row) ->
    subscript (buffer s) (_pData (view s))
      (GetIndex (view s) i (NumColumns (view s))) = None ->
    Matrix.fill_row s i j0 row = None.
Proof.
  induction row as [|x rest IH]; intros s i j0 Hvv Hmax Hi Hj0 Hlong Hout.
  - simpl in Hlong. lia.
  - simpl length in Hlong. rewrite Nat2Z.inj_succ in Hlong. simpl.
    destruct (Z.eq_dec j0 (NumColumns (view s))) as [-> | Hne].
    + unfold MatrixReference.assign, MatrixReference.operator_call.
      rewrite Hout. reflexivity.
    + assert (Hv : valid_index (view s) i j0) by (unfold valid_index; lia).
      destruct (assign_spec s i j0 x Hvv Hv)
        as (s1 & a & Hs1 & _ & Hview & Hlen & _).
      rewrite Hs1. simpl.
      assert (Hnext : SizeT.add j0 1 = j0 + 1).
      { apply add_small. rewrite max_modulus in Hmax. lia. }
      rewrite Hnext. apply IH; rewrite ?Hview; try assumption; try lia.
      * now apply (valid_view_length (buffer s)).
      * now rewrite (subscript_length (buffer s)).
Qed.

(** The outer loop fails at the first row that reaches outside the buffer. *)
Lemma fill_rows_overflow {ElementType Layout} (pre : list (list ElementType)) :
  forall (s : ViewState ElementType Layout) (i0 : Z) long post,
    valid_view (buffer s) (view s) ->
    injective_on_valid (view s) ->
    NumRows (view s) <= SizeT.max ->
    NumColumns (view s) <= SizeT.max ->
    0 <= NumColumns (view s) ->
    0 <= i0 -> i0 + Z.of_nat (length pre) < NumRows (view s) ->
    Forall (fun row => Z.of_nat (length row) <= NumColumns (view s)) pre ->
    NumColumns (view s) < Z.of_nat (length long) ->
    subscript (buffer s) (_pData (view s))
      (GetIndex (view s) (i0 + Z.of_nat (length pre)) (NumColumns (view s))) = None ->
    Matrix.fill_rows s i0 (pre ++ long :: post) = None.
Proof.
  induction pre as [|row rest IH];
    intros s i0 long post Hvv Hinj Hmr Hmc Hnc Hi0 Hfit Hall Hlong Hout.
  - simpl in *. rewrite Z.add_0_r in *.
    rewrite (fill_row_overflow long s i0 0); try assumption; try lia. reflexivity.
  - simpl length in *. rewrite Nat2Z.inj_succ in *.
    apply Forall_cons in Hall as [Hrow Hrest]. simpl.
    destruct (fill_row_spec row s i0 0) as (s1 & Hs1 & Hview & Hlen & _);
      try assumption; try lia.
    rewrite Hs1. simpl.
    assert (Hnext : SizeT.add i0 1 = i0 + 1).
    { apply add_small. rewrite max_modulus in Hmr. lia. }
    rewrite Hnext. apply IH; rewrite ?Hview; try assumption; try lia.
    + now apply (valid_view_length (buffer s)).
    + rewrite (subscript_length (buffer s)) by assumption.
      replace (i0 + 1 + Z.of_nat (length rest))
        with (i0 + Z.succ (Z.of_nat (length rest))) by lia.
      exact Hout.
Qed.

(** X11: a row longer than the first makes the literal constructor assign
    outside the buffer, where nothing is defined: in the column-major layout
    for the first such row wherever it stands, in the row-major layout when
    it is the last row.  (The rows before it are no longer than the first,
    and the element count with one more column is a [size_t].) *)
Theorem ctor_list_long_row_overflows {ElementType} `{ValueInit ElementType} Layout
    (first : list ElementType) (pre : list (list ElementType))
    (long : list ElementType) (post : list (list ElementType)) :
  Forall (fun row => (length row <= length first)%nat) pre ->
  (length first < length long)%nat ->
  Z.of_nat (length (first :: pre ++ long :: post)) * (Z.of_nat (length first) + 1)
    <= SizeT.max ->
  Layout = columnMajor \/ post = [] ->
  Matrix.ctor_list Layout (first :: pre ++ long :: post) = None.
Proof.
  intros Hall Hlong Hprod Hcase.
  set (l := first :: pre ++ long :: post) in *.
  set (R := Z.of_nat (length l)) in *. set (n := Z.of_nat (length first)) in *.
  assert (Hlenl : R = 1 + Z.of_nat (length pre) + 1 + Z.of_nat (length post)).
  { subst R l. simpl length. rewrite length_app. simpl length. lia. }
  assert (Hn0 : 0 <= n) by (subst n; lia).
  assert (HR1 : 1 <= R) by lia.
  assert (HR : R <= SizeT.max) by nia.
  assert (Hn : n <= SizeT.max) by nia.
  assert (HRn : R * n <= SizeT.max) by nia.
  assert (HsR : Matrix.size l = R) by now apply size_small.
  assert (Hsn : Matrix.size first = n) by (apply size_small; subst n; lia).
  set (s0 := Matrix.ctor (ElementType := ElementType) Layout R n).
  assert (HinR : SizeT.in_range R) by (unfold SizeT.in_range; lia).
  assert (Hinn : SizeT.in_range n) by (unfold SizeT.in_range; lia).
  assert (Hvv : valid_view (buffer s0) (view s0))
    by now apply Matrix_ctor_valid_view.
  assert (Hinj : injective_on_valid (view s0)).
  { apply injective_on_valid_attach, ctor_injective_on_valid.
    rewrite max_modulus in HRn. lia. }
  assert (Hrs : NumRows (view s0) = R) by reflexivity.
  assert (Hcs : NumColumns (view s0) = n) by reflexivity.
  assert (Hlen0 : Z.of_nat (length (buffer s0)) = R * n).
  { apply Matrix_ctor_length; lia. }
  change (Matrix.ctor_list Layout l)
    with (Matrix.fill_rows
            (Matrix.ctor Layout (Matrix.size l) (Matrix.size first)) 0 l).
  rewrite HsR, Hsn. fold s0.
  change l with ((first :: pre) ++ long :: post).
  assert (Hpre : Forall (fun row => Z.of_nat (length row) <= NumColumns (view s0))
                   (first :: pre)).
  { rewrite Hcs. apply Forall_cons. split; [subst n; lia|].
    eapply Forall_impl; [exact Hall|]. intros row Hrow. simpl in Hrow.
    subst n. lia. }
  assert (Hklen : Z.of_nat (length (first :: pre)) = 1 + Z.of_nat (length pre)).
  { simpl length. lia. }
  set (k := 0 + Z.of_nat (length (first :: pre))).
  assert (Hk : 0 <= k < R) by (subst k; lia).
  assert (Hoff : exact_offset (view s0) k n =
                 match Layout with columnMajor => k + n * R | rowMajor => k * n + n end).
  { unfold s0. now rewrite Matrix_ctor_view, exact_offset_attach, exact_offset_ctor. }
  assert (Hout : subscript (buffer s0) (_pData (view s0))
                   (GetIndex (view s0) k (NumColumns (view s0))) = None).
  { rewrite Hcs.
    assert (Hex : GetIndex (view s0) k n = exact_offset (view s0) k n).
    { apply GetIndex_exact. rewrite Hoff. rewrite max_modulus in Hprod.
      destruct Layout; nia. }
    rewrite Hex, Hoff. apply subscript_None_ge.
    - destruct Layout; nia.
    - rewrite Hlen0. destruct Hcase as [-> | ->]; [nia|].
      simpl length in Hlenl. destruct Layout; nia. }
  apply fill_rows_overflow; try assumption; fold k; rewrite ?Hrs, ?Hcs; lia.
Qed.

Lemma ctor_list_long_row_overflows_witness :
  Matrix.ctor_list (ElementType := Z) rowMajor [[1]; [2; 3]] = None.
Proof.
  apply (ctor_list_long_row_overflows (ElementType := Z) rowMajor [1] [] [2; 3] []).
  - constructor.
  - simpl. lia.
  - vm_compute. discriminate.
  - right. reflexivity.
Defined.

(** ** Assignment through a block, and empty matrices *)

(** X12: assigning through an in-range block of a valid view at [(i, j)] is
    assigning through the parent at [(firstRow + i, firstColumn + j)]: both
    succeed and give the same buffer, so the assignment through the block
    changes that one element of the parent and no other position. *)
Theorem assign_through_block {ElementType Layout} (buf : list ElementType)
    (m : MatrixBase Layout) (firstRow firstColumn numRows numColumns i j : Z)
    (value : ElementType) :
  valid_view buf m ->
  0 <= firstRow -> 0 <= firstColumn ->
  firstRow + numRows <= NumRows m -> firstColumn + numColumns <= NumColumns m ->
  0 <= i < numRows -> 0 <= j < numColumns ->
  let b := MatrixReference.GetBlock m firstRow firstColumn numRows numColumns in
  exists sb sm,
    MatrixReference.assign (mkViewState b buf) i j value = Some sb /\
    MatrixReference.assign (mkViewState m buf)
      (firstRow + i) (firstColumn + j) value = Some sm /\
    buffer sb = buffer sm /\
    view sb = b /\ view sm = m.
Proof.
  intros Hvv Hfr Hfc Hnr Hnc Hi Hj b.
  assert (Hb : valid_view buf b) by now apply GetBlock_valid_view.
  assert (Hvb : valid_index b i j) by (split; assumption).
  assert (Hvm : valid_index m (firstRow + i) (firstColumn + j))
    by (unfold valid_index; lia).
  assert (Hv0 : valid_index m firstRow firstColumn) by (unfold valid_index; lia).
  destruct (valid_view_subscript buf b i j Hb Hvb) as (pb & Hpb & Hnnb & _ & _ & Hsb).
  destruct (valid_view_subscript buf m _ _ Hvv Hvm) as (p & Hp & _ & _ & _ & Hsm).
  destruct (valid_view_subscript buf m _ _ Hvv Hv0) as (p0 & Hp0 & Hnn0 & Hex0 & _ & _).
  rewrite Hp in Hp0. injection Hp0 as <-.
  assert (Hpb' : pb = (p + Z.to_nat (exact_offset m firstRow firstColumn))%nat).
  { unfold b, MatrixReference.GetBlock, ConstMatrixReference.ctor in Hpb.
    simpl in Hpb. rewrite Hp, Hex0 in Hpb. simpl in Hpb. congruence. }
  assert (Hexb : exact_offset b i j = exact_offset m i j)
    by apply exact_offset_block.
  rewrite Hexb in Hnnb, Hsb. rewrite exact_offset_add in Hsm.
  eexists _, _. unfold MatrixReference.assign, MatrixReference.operator_call.
  cbn [view buffer]. rewrite Hsb, Hsm. cbn [mbind option_bind].
  split; [reflexivity|]. split; [reflexivity|]. split; [|split; reflexivity].
  cbn [buffer]. f_equal. subst pb. lia.
Qed.

Lemma assign_through_block_witness :
  let s := Matrix.ctor (ElementType := Z) rowMajor 3 3 in
  exists sb sm,
    MatrixReference.assign
      (mkViewState (MatrixReference.GetBlock (view s) 1 1 2 2) (buffer s)) 0 1 8
      = Some sb /\
    MatrixReference.assign (mkViewState (view s) (buffer s)) (1 + 0) (1 + 1) 8
      = Some sm /\
    buffer sb = buffer sm.
Proof.
  intros s.
  assert (Hvv : valid_view (buffer s) (view s)).
  { apply Matrix_ctor_valid_view; unfold SizeT.in_range; rewrite max_eq; lia. }
  assert (Hrows : 1 + 2 <= NumRows (view s)) by (unfold NumRows; simpl; lia).
  assert (Hcols : 1 + 2 <= NumColumns (view s)) by (unfold NumColumns; simpl; lia).
  destruct (assign_through_block (buffer s) (view s) 1 1 2 2 0 1 8 Hvv
              ltac:(lia) ltac:(lia) Hrows Hcols ltac:(lia) ltac:(lia))
    as (sb & sm & Hsb & Hsm & Heq & _).
  exists sb, sm. repeat split; assumption.
Defined.

(** X13: a matrix built with a dimension equal to zero has an empty buffer
    and no valid index pair; no element access designates an element. *)
Theorem Matrix_ctor_empty {ElementType} `{ValueInit ElementType} Layout (nr nc : Z) :
  nr = 0 \/ nc = 0 ->
  let s := Matrix.ctor (ElementType := ElementType) Layout nr nc in
  buffer s = [] /\
  (forall r c, ~ valid_index (view s) r c) /\
  (forall r c, ConstMatrixReference.operator_call (buffer s) (view s) r c = None) /\
  (forall r c v, MatrixReference.assign s r c v = None).
Proof.
  intros Hz s.
  assert (Hbuf : buffer s = []).
  { unfold s, Matrix.ctor. simpl.
    replace (SizeT.mul nr nc) with 0; [reflexivity|].
    unfold SizeT.mul. replace (nr * nc) with 0 by (destruct Hz; subst; lia).
    reflexivity. }
  assert (Hsub : forall r c,
            subscript (buffer s) (_pData (view s)) (GetIndex (view s) r c) = None).
  { intros r c. rewrite Hbuf.
    destruct (subscript (@nil ElementType) (_pData (view s)) (GetIndex (view s) r c))
      as [a|] eqn:Ha; [|reflexivity].
    apply subscript_Some in Ha as (_ & _ & _ & Hlt). simpl in Hlt. lia. }
  split; [exact Hbuf|]. split; [|split].
  - intros r c [Hr Hc]. unfold NumRows, NumColumns in *. simpl in *.
    destruct Hz; subst; lia.
  - intros r c. unfold ConstMatrixReference.operator_call. now rewrite Hsub.
  - intros r c v. unfold MatrixReference.assign, MatrixReference.operator_call.
    now rewrite Hsub.
Qed.

Lemma Matrix_ctor_empty_witness :
  buffer (Matrix.ctor (ElementType := Z) columnMajor 0 5) = [].
Proof.
  apply (Matrix_ctor_empty (ElementType := Z) columnMajor 0 5). left. reflexivity.
Defined.
